(** * The data writer of the Postgres wire server (writer.go)

    A shallow embedding of [dataWriter] and of its methods [Define], [Row],
    [CopyIn], [Empty], [Written] and [Complete], followed by the properties
    of the writer's open/closed protocol and of the two messages it builds
    itself (CommandComplete and CopyInResponse).

    Go methods on [*dataWriter] mutate the receiver and return an [error];
    here they are computations in a small state monad over [dataWriter]
    whose result is [option error] ([None] is Go's [nil]). *)

From Stdlib Require Import NArith ZArith List Bool Lia.
From Stdlib.Strings Require Import Byte String.
Import ListNotations.

Local Open Scope N_scope.

(** ** Errors *)

(** Go's [error] values that can reach a caller of the writer: the two
    sentinels declared in writer.go and whatever a collaborator reports. *)
Inductive error : Type :=
| ErrDataWritten
| ErrClosedWriter
| ErrExternal (msg : string).

(** ** Package [types]: message tags *)

Module types.

(** The tag constants the writer uses; their values are declared in
    package [types], so they are parameters here. *)
Class ServerMessage : Type := {
  ServerCommandComplete : byte;
  ServerCopyInResponse : byte
}.

End types.

(** ** Package [buffer]: the frame sink *)

Module buffer.

(** Modelled from the spec: the frame sink [buffer.Writer] (package buffer is
    not among the sources), "a tagged, length-prefixed message builder
    exposing begin-message(tag), append-byte, append-int16, append string,
    null terminator, end-message (-> error, flushes/validates framing)".
    [frame] is the message under construction, tag byte first; [sent] lists,
    oldest first, every frame handed over by end-message in its envelope,
    with the outcome end-message reported for it. *)
Record Writer : Type := mkWriter {
  frame : list byte;
  sent : list (list byte * option error)
}.

(** What the spec leaves to the sink: the layout of a 16-bit integer, the
    length-prefixed envelope put around a finished frame, and whether
    flushing a frame succeeds. *)
Class Sink : Type := {
  int16_bytes : Z -> list byte;
  envelope : list byte -> list byte;
  flush : Writer -> option error
}.

Definition Start (t : byte) (w : Writer) : Writer :=
  {| frame := [t]; sent := sent w |}.

Definition AddByte (b : byte) (w : Writer) : Writer :=
  {| frame := frame w ++ [b]; sent := sent w |}.

Definition AddInt16 `{Sink} (i : Z) (w : Writer) : Writer :=
  {| frame := frame w ++ int16_bytes i; sent := sent w |}.

Definition AddString (s : string) (w : Writer) : Writer :=
  {| frame := frame w ++ list_byte_of_string s; sent := sent w |}.

Definition AddNullTerminate (w : Writer) : Writer :=
  {| frame := frame w ++ [x00]; sent := sent w |}.

(** [End] of the source ([End] is reserved in Rocq). *)
Definition End_ `{Sink} (w : Writer) : option error * Writer :=
  let err := flush w in
  (err, {| frame := []; sent := sent w ++ [(envelope (frame w), err)] |}).

End buffer.

(** ** The writer *)

Section DataWriter.

Context {Column FormatCode any Ctx : Type}.
Context {tags : types.ServerMessage} {sink : buffer.Sink}.

(** [Columns] is a slice type of the package; [None] is the nil slice, which
    [Complete] tells apart from an empty one. *)
Definition Columns : Type := option (list Column).

(** The row codec: the two methods of [Columns] the writer calls. They are
    defined elsewhere in the package and write to the sink they are given. *)
Class RowCodec : Type := {
  Columns_Define :
    Columns -> Ctx -> buffer.Writer -> list FormatCode ->
    option error * buffer.Writer;
  Columns_Write :
    Columns -> Ctx -> list FormatCode -> buffer.Writer -> list any ->
    option error * buffer.Writer
}.

Context {codec : RowCodec}.

Record dataWriter : Type := mkDataWriter {
  ctx : Ctx;
  columns : Columns;
  formats : list FormatCode;
  client : buffer.Writer;
  closed : bool;
  written : N
}.

Definition NewDataWriter (c : Ctx) (cols : Columns) (fmts : list FormatCode)
  (writer : buffer.Writer) : dataWriter :=
  {| ctx := c; columns := cols; formats := fmts; client := writer;
     closed := false; written := 0 |}.

(** *** State monad over the receiver *)

Definition M (A : Type) : Type := dataWriter -> A * dataWriter.

Definition ret {A} (a : A) : M A := fun w => (a, w).

Definition bind {A B} (m : M A) (k : A -> M B) : M B :=
  fun w => let (a, w') := m w in k a w'.

Definition get : M dataWriter := fun w => (w, w).

Definition modify (f : dataWriter -> dataWriter) : M unit :=
  fun w => (tt, f w).

Notation "x <- m ;; k" := (bind m (fun x => k))
  (at level 61, m at next level, right associativity).
Notation "m ;;; k" := (bind m (fun _ => k))
  (at level 61, right associativity).

Definition set_columns (cols : Columns) (w : dataWriter) : dataWriter :=
  {| ctx := ctx w; columns := cols; formats := formats w; client := client w;
     closed := closed w; written := written w |}.

Definition set_client (c : buffer.Writer) (w : dataWriter) : dataWriter :=
  {| ctx := ctx w; columns := columns w; formats := formats w; client := c;
     closed := closed w; written := written w |}.

Definition set_closed (b : bool) (w : dataWriter) : dataWriter :=
  {| ctx := ctx w; columns := columns w; formats := formats w;
     client := client w; closed := b; written := written w |}.

Definition set_written (n : N) (w : dataWriter) : dataWriter :=
  {| ctx := ctx w; columns := columns w; formats := formats w;
     client := client w; closed := closed w; written := n |}.

(** A call on [writer.client]: the sink is reached through a pointer, so
    what the callee does to it stays in the writer. *)
Definition on_client {A} (f : buffer.Writer -> A * buffer.Writer) : M A :=
  fun w => let (a, c) := f (client w) in (a, set_client c w).

Definition on_client_ (f : buffer.Writer -> buffer.Writer) : M unit :=
  modify (fun w => set_client (f (client w)) w).

(** [writer.written++] on a [uint64]. *)
Definition uint64_succ (n : N) : N := (n + 1) mod 2 ^ 64.

Definition is_nil (cols : Columns) : bool :=
  match cols with None => true | Some _ => false end.

(** *** Methods *)

Definition close : M unit := modify (set_closed true).

Definition Define (cols : Columns) : M (option error) :=
  w <- get ;;
  if closed w then ret (Some ErrClosedWriter) else
  modify (set_columns cols) ;;;
  w <- get ;;
  on_client (fun c => Columns_Define (columns w) (ctx w) c (formats w)).

Definition Row (values : list any) : M (option error) :=
  w <- get ;;
  if closed w then ret (Some ErrClosedWriter) else
  modify (fun w => set_written (uint64_succ (written w)) w) ;;;
  w <- get ;;
  on_client (fun c => Columns_Write (columns w) (ctx w) (formats w) c values).

(** The [for] loop of [CopyIn]: [n - i] more rounds of [AddInt16(0)]. *)
Fixpoint CopyIn_loop (rounds : nat) : M unit :=
  match rounds with
  | O => ret tt
  | S r => on_client_ (buffer.AddInt16 0) ;;; CopyIn_loop r
  end.

Definition CopyIn : M (option error) :=
  w <- get ;;
  if closed w then ret (Some ErrClosedWriter) else
  on_client_ (buffer.Start types.ServerCopyInResponse) ;;;
  on_client_ (buffer.AddByte x00) ;;;
  let n := 3%nat in
  on_client_ (buffer.AddInt16 (Z.of_nat n)) ;;;
  CopyIn_loop n ;;;
  err <- on_client buffer.End_ ;;
  match err with
  | Some e => ret (Some e)
  | None => ret None
  end.

(** [defer writer.close()] runs after the result [nil] is fixed. *)
Definition Empty : M (option error) :=
  w <- get ;;
  if closed w then ret (Some ErrClosedWriter) else
  if negb (written w =? 0) then ret (Some ErrDataWritten) else
  close ;;;
  ret None.

Definition Written : M N :=
  w <- get ;; ret (written w).

Definition commandComplete (description : string) (writer : buffer.Writer)
  : option error * buffer.Writer :=
  let writer := buffer.Start types.ServerCommandComplete writer in
  let writer := buffer.AddString description writer in
  let writer := buffer.AddNullTerminate writer in
  buffer.End_ writer.

(** The last two statements of [Complete]: the deferred [close] runs once
    [commandComplete] has returned. *)
Definition Complete_finish (description : string) : M (option error) :=
  err <- on_client (commandComplete description) ;;
  close ;;;
  ret err.

Definition Complete (description : string) : M (option error) :=
  w <- get ;;
  if closed w then ret (Some ErrClosedWriter) else
  if (written w =? 0) && negb (is_nil (columns w)) then
    err <- Empty ;;
    match err with
    | Some e => ret (Some e)
    | None => Complete_finish description
    end
  else Complete_finish description.

(** *** Call sequences *)

(** One call on the writer, and what it hands back. *)
Inductive Call : Type :=
| CallDefine (cols : Columns)
| CallRow (values : list any)
| CallCopyIn
| CallEmpty
| CallWritten
| CallComplete (description : string).

Inductive Reply : Type :=
| Err (e : option error)
| Count (n : N).

Definition call (c : Call) : M Reply :=
  match c with
  | CallDefine cols => e <- Define cols ;; ret (Err e)
  | CallRow values => e <- Row values ;; ret (Err e)
  | CallCopyIn => e <- CopyIn ;; ret (Err e)
  | CallEmpty => e <- Empty ;; ret (Err e)
  | CallWritten => n <- Written ;; ret (Count n)
  | CallComplete d => e <- Complete d ;; ret (Err e)
  end.

Fixpoint run (cs : list Call) : M (list Reply) :=
  match cs with
  | [] => ret []
  | c :: cs' => r <- call c ;; rs <- run cs' ;; ret (r :: rs)
  end.

(** The writer after a sequence of calls. *)
Definition after (cs : list Call) (w : dataWriter) : dataWriter :=
  snd (run cs w).

Definition is_Written (c : Call) : bool :=
  match c with CallWritten => true | _ => false end.

Definition is_terminal (c : Call) : bool :=
  match c with CallEmpty | CallComplete _ => true | _ => false end.

(** The number of [Row] calls of a run that returned [nil]. *)
Fixpoint successful_rows (cs : list Call) (rs : list Reply) : N :=
  match cs, rs with
  | CallRow _ :: cs', Err None :: rs' => 1 + successful_rows cs' rs'
  | _ :: cs', _ :: rs' => successful_rows cs' rs'
  | _, _ => 0
  end.

(** The [Row] calls of a run that find the writer open. *)
Fixpoint rows_on_open (cs : list Call) (w : dataWriter) : N :=
  match cs with
  | [] => 0
  | c :: cs' =>
      match c with
      | CallRow _ => if closed w then 0 else 1
      | _ => 0
      end + rows_on_open cs' (snd (call c w))
  end.

(** The [Empty] and [Complete] calls of a run that returned [nil]. *)
Fixpoint terminal_successes (cs : list Call) (rs : list Reply) : nat :=
  match cs, rs with
  | c :: cs', r :: rs' =>
      match r with
      | Err None => if is_terminal c then 1 else 0
      | _ => 0
      end + terminal_successes cs' rs'
  | _, _ => 0
  end%nat.

Definition is_Define (c : Call) : bool :=
  match c with CallDefine _ => true | _ => false end.

End DataWriter.

(** ** A concrete server, for running the writer

    The properties below hold for every choice of tags, sink and codec.
    This module fixes one choice of each, with big-endian integers and a
    four-byte length after the tag, on which the writer can be run. *)

Module Sample.

Definition byte_of_Z (z : Z) : byte :=
  match Byte.of_N (Z.to_N (z mod 256)) with
  | Some b => b
  | None => x00
  end.

Definition be16 (i : Z) : list byte :=
  [byte_of_Z (i / 256); byte_of_Z i].

Definition be32 (i : Z) : list byte :=
  [byte_of_Z (i / 16777216); byte_of_Z (i / 65536); byte_of_Z (i / 256);
   byte_of_Z i].

(** Tag, then the length of what follows (the length field included), then
    the payload. *)
Definition length_prefixed (frame : list byte) : list byte :=
  match frame with
  | [] => []
  | t :: payload => t :: be32 (Z.of_nat (List.length payload) + 4) ++ payload
  end.

Definition tags : types.ServerMessage :=
  {| types.ServerCommandComplete := "C"%byte;
     types.ServerCopyInResponse := "G"%byte |}.

(** A sink whose connection accepts every frame. *)
Definition sink : buffer.Sink :=
  {| buffer.int16_bytes := be16;
     buffer.envelope := length_prefixed;
     buffer.flush := fun _ => None |}.

(** A sink whose connection is gone: every flush reports an error. *)
Definition broken_sink : buffer.Sink :=
  {| buffer.int16_bytes := be16;
     buffer.envelope := length_prefixed;
     buffer.flush := fun _ => Some (ErrExternal "broken pipe") |}.

(** A row codec over named columns and text values ([None] is NULL). It
    refuses a row whose length is not the number of columns, before writing
    anything. *)
Definition row_bytes (values : list (option string)) : list byte :=
  flat_map
    (fun v =>
       match v with
       | None => be32 (-1)
       | Some s => be32 (Z.of_nat (String.length s)) ++ list_byte_of_string s
       end)
    values.

Definition columns_length (cols : @Columns string) : nat :=
  match cols with None => O | Some l => List.length l end.

Definition codec_with (s : buffer.Sink)
  : @RowCodec string Z (option string) unit :=
  {| Columns_Define := fun cols _ w _ =>
       let w := buffer.Start "T"%byte w in
       let w := buffer.AddInt16 (Z.of_nat (columns_length cols)) w in
       buffer.End_ w;
     Columns_Write := fun cols _ _ w values =>
       if Nat.eqb (List.length values) (columns_length cols) then
         let w := buffer.Start "D"%byte w in
         let w := buffer.AddInt16 (Z.of_nat (List.length values)) w in
         let w :=
           {| buffer.frame := buffer.frame w ++ row_bytes values;
              buffer.sent := buffer.sent w |} in
         buffer.End_ w
       else (Some (ErrExternal "unexpected columns"), w) |}.

Definition codec := codec_with sink.

(** A codec that cannot encode anything. *)
Definition broken_codec : @RowCodec string Z (option string) unit :=
  {| Columns_Define := fun _ _ w _ => (Some (ErrExternal "encode"), w);
     Columns_Write := fun _ _ _ w _ => (Some (ErrExternal "encode"), w) |}.

Definition idle : buffer.Writer := {| buffer.frame := []; buffer.sent := [] |}.

Definition two_columns : @Columns string := Some ["id"; "name"]%string.

(** A fresh writer for a command with two declared columns. *)
Definition fresh : @dataWriter string Z unit :=
  NewDataWriter tt two_columns [] idle.

(** Two rows, one refused by the codec, and a last one after [Complete]. *)
Definition mixed_run : list (@Call string (option string)) :=
  [CallRow [Some "1"; Some "a"]; CallRow [Some "2"]; CallComplete "SELECT 1";
   CallRow [Some "3"; Some "c"]]%string.

End Sample.

(** ** Properties of the writer *)

Section Properties.

Context {Column FormatCode any Ctx : Type}.
Context {tags : types.ServerMessage} {sink : buffer.Sink}.
Context {codec : @RowCodec Column FormatCode any Ctx}.

Implicit Types (w : @dataWriter Column FormatCode Ctx).
Implicit Types (c : @Call Column any) (cs : list (@Call Column any)).

(** Unfolds the monad down to pairs of a result and a writer. *)
Ltac step_monad :=
  unfold Complete_finish, close, on_client, on_client_, modify, get, bind, ret;
  cbn [fst snd].

(** *** A closed writer *)

Lemma Define_closed cols w :
  closed w = true -> Define cols w = (Some ErrClosedWriter, w).
Proof. intros Hc. unfold Define. step_monad. now rewrite Hc. Qed.

Lemma Row_closed values w :
  closed w = true -> Row values w = (Some ErrClosedWriter, w).
Proof. intros Hc. unfold Row. step_monad. now rewrite Hc. Qed.

Lemma CopyIn_closed w :
  closed w = true -> CopyIn w = (Some ErrClosedWriter, w).
Proof. intros Hc. unfold CopyIn. step_monad. now rewrite Hc. Qed.

Lemma Empty_closed w :
  closed w = true -> Empty w = (Some ErrClosedWriter, w).
Proof. intros Hc. unfold Empty. step_monad. now rewrite Hc. Qed.

Lemma Complete_closed d w :
  closed w = true -> Complete d w = (Some ErrClosedWriter, w).
Proof. intros Hc. unfold Complete. step_monad. now rewrite Hc. Qed.

Lemma Written_read w : Written w = (written w, w).
Proof. reflexivity. Qed.

Lemma call_closed c w :
  closed w = true ->
  call c w = ((if is_Written c then Count (written w)
               else Err (Some ErrClosedWriter)), w).
Proof.
  intros Hc. destruct c; unfold call, bind, ret; cbn [is_Written].
  - now rewrite Define_closed.
  - now rewrite Row_closed.
  - now rewrite CopyIn_closed.
  - now rewrite Empty_closed.
  - now rewrite Written_read.
  - now rewrite Complete_closed.
Qed.

Lemma after_nil w : after [] w = w.
Proof. reflexivity. Qed.

Lemma after_cons c cs w : after (c :: cs) w = after cs (snd (call c w)).
Proof.
  unfold after. cbn [run]. unfold bind, ret.
  destruct (call c w) as [r w1]. cbn [snd].
  now destruct (run cs w1).
Qed.

Lemma after_app cs1 cs2 w : after (cs1 ++ cs2) w = after cs2 (after cs1 w).
Proof.
  revert w. induction cs1 as [|c cs1 IH]; intros w.
  - reflexivity.
  - cbn [app]. now rewrite !after_cons, IH.
Qed.

Lemma after_closed cs w : closed w = true -> after cs w = w.
Proof.
  induction cs as [|c cs IH]; intros Hc.
  - reflexivity.
  - rewrite after_cons, (call_closed c w Hc). cbn [snd]. now apply IH.
Qed.

(** *** An open writer *)

Lemma Empty_open w :
  closed w = false ->
  Empty w = if written w =? 0 then (None, set_closed true w)
            else (Some ErrDataWritten, w).
Proof.
  intros Ho. unfold Empty. step_monad. rewrite Ho.
  now destruct (written w =? 0).
Qed.

Lemma commandComplete_sent d (b : buffer.Writer) :
  buffer.sent (snd (commandComplete d b)) =
  buffer.sent b ++
  [(buffer.envelope
      (types.ServerCommandComplete :: list_byte_of_string d ++ [x00]),
    fst (commandComplete d b))].
Proof.
  unfold commandComplete, buffer.End_. reflexivity.
Qed.

Lemma Complete_open d w :
  closed w = false ->
  Complete d w =
  (fst (commandComplete d (client w)),
   set_closed true (set_client (snd (commandComplete d (client w))) w)).
Proof.
  intros Ho. unfold Complete. step_monad. rewrite Ho.
  destruct ((written w =? 0) && negb (is_nil (columns w))) eqn:Hb.
  - apply andb_true_iff in Hb. destruct Hb as [Hw _].
    rewrite (Empty_open w Ho), Hw. cbn.
    now destruct (commandComplete d (client w)).
  - now destruct (commandComplete d (client w)).
Qed.

Lemma Define_open cols w :
  closed w = false ->
  Define cols w =
  (fst (Columns_Define cols (ctx w) (client w) (formats w)),
   set_client (snd (Columns_Define cols (ctx w) (client w) (formats w)))
     (set_columns cols w)).
Proof.
  intros Ho. unfold Define. step_monad. rewrite Ho. cbn.
  now destruct (Columns_Define cols (ctx w) (client w) (formats w)).
Qed.

Lemma Row_open values w :
  closed w = false ->
  Row values w =
  (fst (Columns_Write (columns w) (ctx w) (formats w) (client w) values),
   set_client
     (snd (Columns_Write (columns w) (ctx w) (formats w) (client w) values))
     (set_written (uint64_succ (written w)) w)).
Proof.
  intros Ho. unfold Row. step_monad. rewrite Ho. cbn.
  now destruct (Columns_Write (columns w) (ctx w) (formats w) (client w) values).
Qed.

Lemma CopyIn_loop_client n w :
  CopyIn_loop n w =
  (tt, set_client (Nat.iter n (buffer.AddInt16 0) (client w)) w).
Proof.
  revert w. induction n as [|n IH]; intros w.
  - destruct w; reflexivity.
  - cbn [CopyIn_loop]. step_monad. rewrite IH, Nat.iter_succ_r. reflexivity.
Qed.

Lemma CopyIn_open w :
  closed w = false ->
  CopyIn w =
  (buffer.flush
     {| buffer.frame :=
          types.ServerCopyInResponse :: x00 :: buffer.int16_bytes 3 ++
          buffer.int16_bytes 0 ++ buffer.int16_bytes 0 ++ buffer.int16_bytes 0;
        buffer.sent := buffer.sent (client w) |},
   set_client
     {| buffer.frame := [];
        buffer.sent :=
          buffer.sent (client w) ++
          [(buffer.envelope
              (types.ServerCopyInResponse :: x00 :: buffer.int16_bytes 3 ++
               buffer.int16_bytes 0 ++ buffer.int16_bytes 0 ++
               buffer.int16_bytes 0),
            buffer.flush
              {| buffer.frame :=
                   types.ServerCopyInResponse :: x00 ::
                   buffer.int16_bytes 3 ++ buffer.int16_bytes 0 ++
                   buffer.int16_bytes 0 ++ buffer.int16_bytes 0;
                 buffer.sent := buffer.sent (client w) |})] |} w).
Proof.
  intros Ho. unfold CopyIn. step_monad. rewrite Ho.
  rewrite CopyIn_loop_client.
  unfold buffer.End_, buffer.AddInt16, buffer.AddByte, buffer.Start.
  cbn. rewrite <- !app_assoc. cbn.
  now destruct (buffer.flush _).
Qed.

Lemma Row_written values w :
  closed w = false ->
  written (snd (Row values w)) = uint64_succ (written w).
Proof. intros Ho. now rewrite (Row_open values w Ho). Qed.

Lemma Row_keeps_open values w :
  closed w = false -> closed (snd (Row values w)) = false.
Proof. intros Ho. now rewrite (Row_open values w Ho). Qed.

Lemma after_rows_open (rows : list (list any)) w :
  closed w = false -> closed (after (map CallRow rows) w) = false.
Proof.
  revert w. induction rows as [|values rows IH]; intros w Ho.
  - exact Ho.
  - cbn [map]. rewrite after_cons. apply IH.
    unfold call, bind, ret. cbn [snd].
    pose proof (Row_keeps_open values w Ho) as Hk.
    now destruct (Row values w).
Qed.

Lemma terminal_success_closes c w :
  is_terminal c = true ->
  fst (call c w) = Err None ->
  closed (snd (call c w)) = true.
Proof.
  intros Ht Hok. destruct (closed w) eqn:Hc.
  - now rewrite (call_closed c w Hc).
  - destruct c; try discriminate Ht; unfold call, bind, ret in *.
    + rewrite (Empty_open w Hc) in *.
      destruct (written w =? 0); [reflexivity | discriminate Hok].
    + now rewrite (Complete_open description w Hc).
Qed.

(** The counter moves in one place only: a [Row] on an open writer, before
    the codec is asked, whatever the codec then answers. *)
Lemma call_written c w :
  written (snd (call c w)) =
  match c with
  | CallRow _ => if closed w then written w else uint64_succ (written w)
  | _ => written w
  end.
Proof.
  destruct (closed w) eqn:Hc.
  - rewrite (call_closed c w Hc). now destruct c.
  - destruct c; unfold call, bind, ret.
    + now rewrite (Define_open cols w Hc).
    + now rewrite (Row_open values w Hc).
    + now rewrite (CopyIn_open w Hc).
    + rewrite (Empty_open w Hc). now destruct (written w =? 0).
    + reflexivity.
    + now rewrite (Complete_open description w Hc).
Qed.

(** Short of the wrap-around of [uint64], no call lowers the counter. *)
Lemma call_written_le c w :
  written w < 2 ^ 64 - 1 -> written w <= written (snd (call c w)).
Proof.
  intros Hb. rewrite call_written.
  destruct c; try apply N.le_refl.
  destruct (closed w); [apply N.le_refl|].
  unfold uint64_succ. rewrite N.mod_small; lia.
Qed.

(** *** The sequencing contract *)

(** C1: once [Empty] or [Complete] has returned nil the writer is closed;
    after any further calls it is still the very same writer, every call
    other than [Written] returns [ErrClosedWriter], and no call, a second
    [Complete] in particular, hands anything more to the frame sink. *)
Theorem closed_is_absorbing w t cs c :
  is_terminal t = true ->
  fst (call t w) = Err None ->
  closed (snd (call t w)) = true /\
  (is_Written c = false ->
   fst (call c (after cs (snd (call t w)))) = Err (Some ErrClosedWriter)) /\
  snd (call c (after cs (snd (call t w)))) = snd (call t w) /\
  (forall d,
     Complete d (after cs (snd (call t w))) =
     (Some ErrClosedWriter, snd (call t w))).
Proof.
  intros Ht Hok.
  pose proof (terminal_success_closes t w Ht Hok) as Hc.
  rewrite (after_closed cs _ Hc), (call_closed c _ Hc). cbn [fst snd].
  repeat split.
  - exact Hc.
  - intros Hw. now rewrite Hw.
  - intros d. now apply Complete_closed.
Qed.

(** C3: [Empty] returns [ErrDataWritten] exactly when the writer is open
    and has written rows; on a closed writer it returns [ErrClosedWriter]
    whatever the counter is; on an open writer with no row written it
    returns nil and closes the writer. *)
Theorem Empty_errors w :
  (fst (Empty w) = Some ErrDataWritten <-> closed w = false /\ 0 < written w) /\
  (closed w = true -> fst (Empty w) = Some ErrClosedWriter) /\
  (closed w = false -> written w = 0 -> Empty w = (None, set_closed true w)).
Proof.
  destruct (closed w) eqn:Hc.
  - rewrite (Empty_closed w Hc). cbn [fst]. repeat split; try discriminate.
    intros [H _]; discriminate H.
  - rewrite (Empty_open w Hc). destruct (N.eqb_spec (written w) 0) as [E|E].
    + cbn [fst]. repeat split; try discriminate.
      intros [_ H]. lia.
    + cbn [fst]. repeat split; try discriminate; try lia.
Qed.

(** C4, as the code has it: on an open writer with a column spec and no row
    written, [Complete] returns what the frame sink reports for the
    CommandComplete frame (nil when the sink accepts it), leaves the counter
    at 0, leaves the writer closed, and hands the sink exactly one frame,
    the CommandComplete carrying the description: the [Empty] it runs first
    does not stop it. *)
Theorem Complete_zero_rows w d :
  closed w = false ->
  is_nil (columns w) = false ->
  written w = 0 ->
  fst (Complete d w) = fst (commandComplete d (client w)) /\
  (fst (commandComplete d (client w)) = None -> fst (Complete d w) = None) /\
  written (snd (Complete d w)) = 0 /\
  closed (snd (Complete d w)) = true /\
  buffer.sent (client (snd (Complete d w))) =
  buffer.sent (client w) ++
  [(buffer.envelope
      (types.ServerCommandComplete :: list_byte_of_string d ++ [x00]),
    fst (Complete d w))].
Proof.
  intros Ho _ Hw. rewrite (Complete_open d w Ho). cbn [fst snd].
  split; [reflexivity|]. split; [tauto|]. split; [exact Hw|].
  split; [reflexivity|]. cbn [client set_closed set_client].
  apply commandComplete_sent.
Qed.

(** C5: the [Empty] that [Complete] calls on itself cannot fail. Where the
    guard of that call holds on an open writer, [Empty] returns nil (and
    closes the writer), so neither of its two errors is met; the result of
    [Complete] on an open writer is always the one of [commandComplete]. *)
Theorem Complete_inner_Empty_succeeds w d :
  closed w = false ->
  ((written w =? 0) && negb (is_nil (columns w)) = true ->
   Empty w = (None, set_closed true w)) /\
  fst (Complete d w) = fst (commandComplete d (client w)).
Proof.
  intros Ho. split.
  - intros Hg. apply andb_true_iff in Hg. destruct Hg as [Hw _].
    now rewrite (Empty_open w Ho), Hw.
  - now rewrite (Complete_open d w Ho).
Qed.

(** C6: a [Complete] that returns nil has handed the sink exactly one
    frame: the command-complete tag, the bytes of the description and a
    null byte, in the sink's envelope, and the sink accepted it. *)
Theorem Complete_frame w d :
  fst (Complete d w) = None ->
  buffer.sent (client (snd (Complete d w))) =
  buffer.sent (client w) ++
  [(buffer.envelope
      (types.ServerCommandComplete :: list_byte_of_string d ++ [x00]),
    None)].
Proof.
  intros Hok. destruct (closed w) eqn:Hc.
  - rewrite (Complete_closed d w Hc) in Hok. discriminate Hok.
  - rewrite (Complete_open d w Hc) in *. cbn [fst snd] in *.
    cbn [client set_closed set_client].
    now rewrite commandComplete_sent, Hok.
Qed.

(** C7: [CopyIn] on an open writer hands the sink exactly one frame: the
    copy-in-response tag, a format byte 0, the 16-bit count 3 and three
    16-bit format codes 0; it changes neither the counter nor the closed
    flag. *)
Theorem CopyIn_frame w :
  closed w = false ->
  buffer.sent (client (snd (CopyIn w))) =
  buffer.sent (client w) ++
  [(buffer.envelope
      (types.ServerCopyInResponse :: x00 :: buffer.int16_bytes 3 ++
       buffer.int16_bytes 0 ++ buffer.int16_bytes 0 ++ buffer.int16_bytes 0),
    fst (CopyIn w))] /\
  written (snd (CopyIn w)) = written w /\
  closed (snd (CopyIn w)) = closed w.
Proof.
  intros Ho. rewrite (CopyIn_open w Ho). cbn. auto.
Qed.

(** C8: along any sequence of calls, once the closed flag is set it stays
    set and the counter keeps the value it had: whatever calls follow a
    point where the writer is closed, the writer is closed afterwards with
    the same count. *)
Theorem closed_is_final w cs1 cs2 :
  closed (after cs1 w) = true ->
  closed (after (cs1 ++ cs2) w) = true /\
  written (after (cs1 ++ cs2) w) = written (after cs1 w).
Proof.
  intros Hc. rewrite after_app, (after_closed cs2 _ Hc). now split.
Qed.

(** C9: when the frame sink reports an error for the CommandComplete
    frame, [Complete] returns that error and the writer is closed all the
    same: after any further calls, every call other than [Written] returns
    [ErrClosedWriter], and [Written] still reads the counter. *)
Theorem Complete_sink_error_closes w d e cs c :
  closed w = false ->
  fst (commandComplete d (client w)) = Some e ->
  fst (Complete d w) = Some e /\
  closed (snd (Complete d w)) = true /\
  (is_Written c = false ->
   fst (call c (after cs (snd (Complete d w)))) = Err (Some ErrClosedWriter)) /\
  fst (call CallWritten (after cs (snd (Complete d w)))) = Count (written w).
Proof.
  intros Ho He.
  assert (Hc : closed (snd (Complete d w)) = true)
    by now rewrite (Complete_open d w Ho).
  rewrite (after_closed cs _ Hc), !(call_closed _ _ Hc).
  rewrite (Complete_open d w Ho) in *. cbn [fst snd] in *.
  repeat split; try assumption.
  intros Hw. now rewrite Hw.
Qed.

(** C10, as the code has it: on an open writer, however many rows were
    written before, [Define] is not refused by the writer: it stores its
    argument as the column spec, hands it to the row codec together with
    the writer's context, sink and format codes, and returns the codec's
    result, leaving counter and closed flag alone. *)
Theorem Define_after_rows w (rows : list (list any)) cols :
  closed w = false ->
  Define cols (after (map CallRow rows) w) =
  (fst (Columns_Define cols (ctx (after (map CallRow rows) w))
          (client (after (map CallRow rows) w))
          (formats (after (map CallRow rows) w))),
   set_client
     (snd (Columns_Define cols (ctx (after (map CallRow rows) w))
             (client (after (map CallRow rows) w))
             (formats (after (map CallRow rows) w))))
     (set_columns cols (after (map CallRow rows) w))) /\
  columns (snd (Define cols (after (map CallRow rows) w))) = cols /\
  written (snd (Define cols (after (map CallRow rows) w))) =
  written (after (map CallRow rows) w) /\
  closed (snd (Define cols (after (map CallRow rows) w))) = false.
Proof.
  intros Ho. pose proof (after_rows_open rows w Ho) as Hr.
  rewrite (Define_open cols _ Hr). cbn. auto.
Qed.

End Properties.

(** ** The writer at work on the sample server *)

Section Examples.

#[local] Existing Instance Sample.tags.
#[local] Existing Instance Sample.sink.
#[local] Existing Instance Sample.codec.

Local Open Scope string_scope.
Local Open Scope list_scope.

Import Sample.

(** Spec 8.4: two rows, then [Complete]. *)
Example two_rows_run :
  let r :=
    run [CallDefine two_columns; CallRow [Some "1"; Some "a"];
         CallRow [Some "2"; Some "b"]; CallComplete "SELECT 2"; CallWritten]
      fresh in
  fst r = [Err None; Err None; Err None; Err None; Count 2] /\
  closed (snd r) = true /\
  List.length (buffer.sent (client (snd r))) = 4%nat.
Proof. repeat split. Qed.

Example CopyIn_bytes :
  buffer.sent (client (snd (CopyIn fresh))) =
  [(["G"; x00; x00; x00; "013"; x00; x00; "003"; x00; x00; x00; x00; x00;
     x00]%byte, None)].
Proof. reflexivity. Qed.

Example Complete_bytes :
  buffer.sent (client (snd (Complete "SELECT 0" fresh))) =
  [(["C"; x00; x00; x00; "013"; "S"; "E"; "L"; "E"; "C"; "T"; " "; "0";
     x00]%byte, None)].
Proof. reflexivity. Qed.

(** C1 at work: [Complete] succeeds on the fresh writer; after [Written]
    and [CopyIn], a [Row] is refused. *)
Lemma closed_is_absorbing_witness :
  fst (call (CallRow [Some "3"; Some "c"])
         (after [CallWritten; CallCopyIn]
            (snd (call (CallComplete "SELECT 0") fresh)))) =
  Err (Some ErrClosedWriter).
Proof.
  exact (proj1 (proj2
           (closed_is_absorbing fresh (CallComplete "SELECT 0")
              [CallWritten; CallCopyIn] (CallRow [Some "3"; Some "c"])
              eq_refl eq_refl)) eq_refl).
Defined.

(** C2: a [Row] with one value where two columns are declared is refused
    by the codec before anything reaches the sink, yet the counter reads 1
    although no [Row] call has returned nil. *)
Theorem Row_counts_refused_row :
  let r := run [CallRow [Some "1"]; CallWritten] fresh in
  fst r = [Err (Some (ErrExternal "unexpected columns")); Count 1] /\
  buffer.sent (client (snd r)) = [] /\
  successful_rows (Column := string) [CallRow [Some "1"]; CallWritten]
    (fst r) = 0%N /\
  fst (Written (snd r)) = 1%N.
Proof. repeat split. Qed.

(** C4 fails as stated: with a sink that reports an error, [Complete] on
    an open writer with columns and no rows does not succeed. *)
Lemma Complete_zero_rows_sink_error :
  closed fresh = false /\
  is_nil (columns fresh) = false /\
  written fresh = 0%N /\
  fst (Complete (sink := broken_sink) "SELECT 0" fresh) =
  Some (ErrExternal "broken pipe") /\
  fst (Complete (sink := broken_sink) "SELECT 0" fresh) <> None.
Proof. repeat split. discriminate. Qed.

Lemma Complete_zero_rows_witness :
  fst (Complete "SELECT 0" fresh) = None /\
  written (snd (Complete "SELECT 0" fresh)) = 0%N /\
  closed (snd (Complete "SELECT 0" fresh)) = true /\
  buffer.sent (client (snd (Complete "SELECT 0" fresh))) =
  [(buffer.envelope ("C"%byte :: list_byte_of_string "SELECT 0" ++ [x00]),
    None)].
Proof.
  pose proof (Complete_zero_rows fresh "SELECT 0" eq_refl eq_refl eq_refl)
    as [_ [Hok [Hw [Hc Hs]]]].
  exact (conj (Hok eq_refl) (conj Hw (conj Hc Hs))).
Defined.

Lemma Complete_inner_Empty_succeeds_witness :
  Empty fresh = (None, set_closed true fresh).
Proof.
  exact (proj1 (Complete_inner_Empty_succeeds fresh "SELECT 0" eq_refl)
           eq_refl).
Defined.

Lemma Complete_frame_witness :
  buffer.sent (client (snd (Complete "SELECT 2" (after
    [CallRow [Some "1"; Some "a"]; CallRow [Some "2"; Some "b"]] fresh)))) =
  buffer.sent (client (after
    [CallRow [Some "1"; Some "a"]; CallRow [Some "2"; Some "b"]] fresh)) ++
  [(buffer.envelope ("C"%byte :: list_byte_of_string "SELECT 2" ++ [x00]),
    None)].
Proof.
  exact (Complete_frame
           (after [CallRow [Some "1"; Some "a"]; CallRow [Some "2"; Some "b"]]
              fresh) "SELECT 2" eq_refl).
Defined.

Lemma CopyIn_frame_witness :
  buffer.sent (client (snd (CopyIn fresh))) =
  [(buffer.envelope
      ("G"%byte :: x00 :: Sample.be16 3 ++ Sample.be16 0 ++ Sample.be16 0 ++
       Sample.be16 0), None)] /\
  written (snd (CopyIn fresh)) = 0%N /\
  closed (snd (CopyIn fresh)) = false.
Proof.
  exact (CopyIn_frame fresh eq_refl).
Defined.

Lemma closed_is_final_witness :
  closed (after ([CallEmpty] ++ [CallRow [Some "1"; Some "a"]; CallEmpty])
            fresh) = true /\
  written (after ([CallEmpty] ++ [CallRow [Some "1"; Some "a"]; CallEmpty])
             fresh) = 0%N.
Proof.
  exact (closed_is_final fresh [CallEmpty]
           [CallRow [Some "1"; Some "a"]; CallEmpty] eq_refl).
Defined.

Lemma Complete_sink_error_closes_witness :
  fst (Complete (sink := broken_sink) "SELECT 0" fresh) =
  Some (ErrExternal "broken pipe") /\
  closed (snd (Complete (sink := broken_sink) "SELECT 0" fresh)) = true /\
  fst (call (sink := broken_sink) CallEmpty
         (after (sink := broken_sink) [CallWritten]
            (snd (Complete (sink := broken_sink) "SELECT 0" fresh)))) =
  Err (Some ErrClosedWriter).
Proof.
  pose proof (Complete_sink_error_closes (sink := broken_sink) fresh
                "SELECT 0" (ErrExternal "broken pipe") [CallWritten]
                CallEmpty eq_refl eq_refl) as [He [Hc [Hr _]]].
  exact (conj He (conj Hc (Hr eq_refl))).
Defined.

(** C10 fails as stated: with a codec that reports an error, [Define] on an
    open writer does not succeed. *)
Lemma Define_codec_error :
  closed fresh = false /\
  fst (Define (codec := broken_codec) two_columns fresh) =
  Some (ErrExternal "encode") /\
  fst (Define (codec := broken_codec) two_columns fresh) <> None.
Proof. repeat split. discriminate. Qed.

Lemma Define_after_rows_witness :
  fst (Define (Some ["total"])
         (after (map CallRow [[Some "1"; Some "a"]; [Some "2"; Some "b"]])
            fresh)) = None /\
  columns (snd (Define (Some ["total"])
         (after (map CallRow [[Some "1"; Some "a"]; [Some "2"; Some "b"]])
            fresh))) = Some ["total"].
Proof.
  pose proof (Define_after_rows fresh
                [[Some "1"; Some "a"]; [Some "2"; Some "b"]] (Some ["total"])
                eq_refl) as [Hd [Hc _]].
  exact (conj (f_equal fst Hd) Hc).
Defined.

End Examples.

(** ** Further properties of the writer *)

Section Composition.

Context {Column FormatCode any Ctx : Type}.
Context {tags : types.ServerMessage} {sink : buffer.Sink}.
Context {codec : @RowCodec Column FormatCode any Ctx}.

Implicit Types (w : @dataWriter Column FormatCode Ctx).
Implicit Types (c : @Call Column any) (cs : list (@Call Column any)).

Lemma run_cons c cs w :
  fst (run (c :: cs) w) = fst (call c w) :: fst (run cs (snd (call c w))).
Proof.
  cbn [run]. unfold bind, ret. destruct (call c w) as [r w1]. cbn [fst snd].
  now destruct (run cs w1).
Qed.

Lemma closed_no_terminal_success cs w :
  closed w = true -> terminal_successes cs (fst (run cs w)) = O.
Proof.
  revert w. induction cs as [|c cs IH]; intros w Hc.
  - reflexivity.
  - rewrite run_cons, (call_closed c w Hc). cbn [fst snd terminal_successes].
    rewrite (IH w Hc). now destruct c.
Qed.

Lemma call_keeps_ctx_formats c w :
  ctx (snd (call c w)) = ctx w /\ formats (snd (call c w)) = formats w /\
  (is_Define c = false -> columns (snd (call c w)) = columns w).
Proof.
  destruct (closed w) eqn:Hc.
  - rewrite (call_closed c w Hc). cbn [snd]. auto.
  - destruct c; unfold call, bind, ret.
    + rewrite (Define_open cols w Hc). cbn. repeat split. discriminate.
    + rewrite (Row_open values w Hc). cbn. auto.
    + rewrite (CopyIn_open w Hc). cbn. auto.
    + rewrite (Empty_open w Hc). destruct (written w =? 0); cbn; auto.
    + cbn. auto.
    + rewrite (Complete_open description w Hc). cbn. auto.
Qed.

(** X1: on every open writer, whatever its counter and column spec,
    [Complete] returns what the sink reports for the CommandComplete frame,
    closes the writer, keeps counter and column spec, and hands the sink
    exactly one frame, the CommandComplete with the description. *)
Theorem Complete_on_open_writer w d :
  closed w = false ->
  fst (Complete d w) = fst (commandComplete d (client w)) /\
  closed (snd (Complete d w)) = true /\
  written (snd (Complete d w)) = written w /\
  columns (snd (Complete d w)) = columns w /\
  buffer.sent (client (snd (Complete d w))) =
  buffer.sent (client w) ++
  [(buffer.envelope
      (types.ServerCommandComplete :: list_byte_of_string d ++ [x00]),
    fst (Complete d w))].
Proof.
  intros Ho. rewrite (Complete_open d w Ho). cbn [fst snd].
  do 4 (split; [reflexivity|]).
  cbn [client set_closed set_client]. apply commandComplete_sent.
Qed.

(** X2: in a run of calls from any writer, at most one [Empty] or
    [Complete] call returns nil. *)
Theorem at_most_one_terminal_success cs w :
  (terminal_successes cs (fst (run cs w)) <= 1)%nat.
Proof.
  revert w. induction cs as [|c cs IH]; intros w.
  - cbn. lia.
  - rewrite run_cons. cbn [terminal_successes].
    destruct (fst (call c w)) as [[e|]|n] eqn:Hr;
      try (specialize (IH (snd (call c w))); lia).
    destruct (is_terminal c) eqn:Ht.
    + rewrite closed_no_terminal_success; [lia|].
      now apply terminal_success_closes.
    + specialize (IH (snd (call c w))). lia.
Qed.

(** X3: after a run of calls the counter is the one before plus the number
    of [Row] calls that found the writer open, modulo 2^64: every such call
    counts, whatever the codec answered, and nothing else does. *)
Theorem written_counts_rows_on_open cs w :
  written w < 2 ^ 64 ->
  written (after cs w) = (written w + rows_on_open cs w) mod 2 ^ 64.
Proof.
  revert w. induction cs as [|c cs IH]; intros w Hb.
  - rewrite after_nil. cbn [rows_on_open]. rewrite N.add_0_r.
    symmetry. now apply N.mod_small.
  - rewrite after_cons. cbn [rows_on_open].
    pose proof (call_written c w) as Hw.
    assert (Hstep : written (snd (call c w)) =
                    (written w +
                     match c with
                     | CallRow _ => if closed w then 0 else 1
                     | _ => 0
                     end) mod 2 ^ 64).
    { rewrite Hw. destruct c; rewrite ?N.add_0_r;
        try (symmetry; now apply N.mod_small).
      destruct (closed w); [|reflexivity].
      rewrite N.add_0_r. symmetry. now apply N.mod_small. }
    rewrite IH.
    + rewrite Hstep, N.Div0.add_mod_idemp_l. f_equal. lia.
    + rewrite Hstep. apply N.mod_upper_bound. discriminate.
Qed.

(** X4: of all calls on an open writer, [Complete] always closes it,
    [Empty] closes it exactly when the counter is zero, and [Define],
    [Row], [CopyIn] and [Written] never do, whatever codec and sink
    report. *)
Theorem only_terminal_calls_close c w :
  closed w = false ->
  closed (snd (call c w)) =
  match c with
  | CallEmpty => written w =? 0
  | CallComplete _ => true
  | _ => false
  end.
Proof.
  intros Ho. destruct c; unfold call, bind, ret.
  - now rewrite (Define_open cols w Ho).
  - now rewrite (Row_open values w Ho).
  - now rewrite (CopyIn_open w Ho).
  - rewrite (Empty_open w Ho). now destruct (written w =? 0).
  - exact Ho.
  - now rewrite (Complete_open description w Ho).
Qed.

(** X5: no sequence of calls changes the context or the format codes the
    writer was built with, and the column spec changes in [Define] only. *)
Theorem ctx_and_formats_are_fixed cs w :
  ctx (after cs w) = ctx w /\
  formats (after cs w) = formats w /\
  (forallb (fun c => negb (is_Define c)) cs = true ->
   columns (after cs w) = columns w).
Proof.
  revert w. induction cs as [|c cs IH]; intros w.
  - rewrite after_nil. auto.
  - rewrite after_cons.
    destruct (IH (snd (call c w))) as [Hx [Hf Hcols]].
    destruct (call_keeps_ctx_formats c w) as [Hx1 [Hf1 Hc1]].
    rewrite Hx, Hf, Hx1, Hf1. repeat split.
    cbn [forallb]. intros Hall. apply andb_true_iff in Hall.
    destruct Hall as [Hd Hrest]. apply negb_true_iff in Hd.
    now rewrite (Hcols Hrest), (Hc1 Hd).
Qed.

(** X6: [Empty] sends nothing and counts nothing: in every state it leaves
    sink, counter and column spec as they are, and the writer is closed
    afterwards exactly when it was closed before or the counter is zero. *)
Theorem Empty_only_sets_closed w :
  client (snd (Empty w)) = client w /\
  written (snd (Empty w)) = written w /\
  columns (snd (Empty w)) = columns w /\
  closed (snd (Empty w)) = closed w || (written w =? 0).
Proof.
  destruct (closed w) eqn:Hc.
  - rewrite (Empty_closed w Hc). cbn. auto.
  - rewrite (Empty_open w Hc). destruct (written w =? 0); cbn; auto.
Qed.

(** X7: a [Row] that follows a [Define] on an open writer is encoded with
    the column spec of that [Define] and written to the sink as the codec's
    [Define] left it; the counter goes up by one. *)
Theorem Row_after_Define cols values w :
  closed w = false ->
  Row values (snd (Define cols w)) =
  (fst (Columns_Write cols (ctx w) (formats w)
          (snd (Columns_Define cols (ctx w) (client w) (formats w))) values),
   set_client
     (snd (Columns_Write cols (ctx w) (formats w)
             (snd (Columns_Define cols (ctx w) (client w) (formats w)))
             values))
     (set_written (uint64_succ (written w)) (set_columns cols w))).
Proof.
  intros Ho. rewrite (Define_open cols w Ho). cbn [snd].
  rewrite Row_open by exact Ho. reflexivity.
Qed.

(** X8: short of the wrap-around of the counter, an [Empty] that follows a
    [Row] on an open writer is refused with [ErrDataWritten], whether the
    codec accepted the row or not, and leaves the writer open and as the
    [Row] left it. *)
Theorem Empty_after_Row_refused values w :
  closed w = false ->
  written w < 2 ^ 64 - 1 ->
  Empty (snd (Row values w)) = (Some ErrDataWritten, snd (Row values w)) /\
  closed (snd (Row values w)) = false.
Proof.
  intros Ho Hb.
  pose proof (Row_keeps_open values w Ho) as Hk.
  pose proof (Row_written values w Ho) as Hw.
  rewrite (Empty_open _ Hk), Hw. split; [|exact Hk].
  unfold uint64_succ. rewrite N.mod_small by lia.
  destruct (N.eqb_spec (written w + 1) 0) as [E|E]; [lia | reflexivity].
Qed.

(** X9: [CopyIn] does not end the response: any number of [CopyIn] calls
    on an open writer leave it open with the same counter, and each hands
    one more frame to the sink. *)
Theorem CopyIn_repeats n w :
  closed w = false ->
  closed (after (repeat CallCopyIn n) w) = false /\
  written (after (repeat CallCopyIn n) w) = written w /\
  List.length (buffer.sent (client (after (repeat CallCopyIn n) w))) =
  (List.length (buffer.sent (client w)) + n)%nat.
Proof.
  revert w. induction n as [|n IH]; intros w Ho.
  - cbn [repeat]. rewrite after_nil. repeat split; [exact Ho | lia].
  - cbn [repeat]. rewrite after_cons.
    assert (Hs : snd (call (any := any) CallCopyIn w) = snd (CopyIn w)).
    { unfold call, bind, ret. now destruct (CopyIn w). }
    rewrite Hs.
    assert (Ho' : closed (snd (CopyIn w)) = false)
      by now rewrite (CopyIn_open w Ho).
    destruct (IH _ Ho') as [Hc [Hw Hl]].
    rewrite Hc, Hw, Hl. rewrite (CopyIn_open w Ho).
    cbn [snd client set_client written buffer.sent].
    rewrite length_app. cbn [List.length]. repeat split. lia.
Qed.

End Composition.

Section CompositionExamples.

#[local] Existing Instance Sample.tags.
#[local] Existing Instance Sample.sink.
#[local] Existing Instance Sample.codec.

Local Open Scope string_scope.
Local Open Scope list_scope.

Import Sample.

Lemma Complete_on_open_writer_witness :
  fst (Complete "SELECT 1" (after [CallRow [Some "1"; Some "a"]] fresh)) =
  None /\
  closed (snd (Complete "SELECT 1" (after [CallRow [Some "1"; Some "a"]]
                                      fresh))) = true /\
  written (snd (Complete "SELECT 1" (after [CallRow [Some "1"; Some "a"]]
                                       fresh))) = 1%N.
Proof.
  pose proof (Complete_on_open_writer
                (after [CallRow [Some "1"; Some "a"]] fresh) "SELECT 1"
                eq_refl) as [He [Hc [Hw _]]].
  exact (conj He (conj Hc Hw)).
Defined.

Lemma written_counts_rows_on_open_witness :
  written (after mixed_run fresh) = 2%N.
Proof.
  exact (written_counts_rows_on_open mixed_run fresh eq_refl).
Defined.

Lemma only_terminal_calls_close_witness :
  closed (snd (call CallEmpty (after [CallRow [Some "2"]] fresh))) = false.
Proof.
  exact (only_terminal_calls_close CallEmpty (after [CallRow [Some "2"]] fresh)
           eq_refl).
Defined.

Lemma Row_after_Define_witness :
  fst (Row [Some "7"] (snd (Define (Some ["total"]) fresh))) = None.
Proof.
  exact (f_equal fst (Row_after_Define (Some ["total"]) [Some "7"] fresh
                        eq_refl)).
Defined.

Lemma Empty_after_Row_refused_witness :
  Empty (snd (Row [Some "2"] fresh)) =
  (Some ErrDataWritten, snd (Row [Some "2"] fresh)).
Proof.
  exact (proj1 (Empty_after_Row_refused [Some "2"] fresh eq_refl eq_refl)).
Defined.

Lemma CopyIn_repeats_witness :
  closed (after (repeat CallCopyIn 2) fresh) = false /\
  written (after (repeat CallCopyIn 2) fresh) = 0%N /\
  List.length (buffer.sent (client (after (repeat CallCopyIn 2) fresh))) =
  2%nat.
Proof.
  exact (CopyIn_repeats (any := option string) 2 fresh eq_refl).
Defined.

End CompositionExamples.
